(** * requestor.py: partitioning, execution plans and result aggregation

    A shallow embedding of [src/requestor.py]: the chunking generator
    [data], the coroutine [worker] that prepares one batch of commands per
    task, and the consumption loop of [main].

    Python values are modelled as follows.
    - [int] is [Z]; [len] is [Z.of_nat (length _)].
    - [str] is [string]; a character is one of the 256 code points of
      [ascii].
    - an exception is a value of [exn]; code that may raise returns an
      [outcome].
    - the objects of the yapapi library ([Task], [WorkContext], the
      [Executor]) and the temporary files are part of an explicit [world]
      that the coroutine threads through its calls. *)

From Stdlib Require Import ZArith Ascii String List Lia Bool.
From stdpp Require Import base tactics option list gmap strings.

Set Warnings "-register-all".

Local Open Scope string_scope.
Local Open Scope list_scope.
Local Open Scope Z_scope.

(** ** Exceptions and results *)

(** The exceptions the modelled code can raise or have thrown into it. *)
Inductive exn : Type :=
  | ZeroDivisionError      (* [len(lines) / 0] *)
  | ValueError             (* [range()] with a zero step *)
  | JSONDecodeError        (* [json.load] on text that is not JSON *)
  | CommandExecutionError  (* the Executor reports a failed remote command *)
  | CancelledError         (* the asyncio task is cancelled *)
  | TimeoutError.          (* the Executor's deadline expired *)

Inductive outcome (A : Type) : Type :=
  | Return (a : A)
  | Raise (e : exn).
Arguments Return {A} a.
Arguments Raise {A} e.

Definition bind {A B : Type} (m : outcome A) (f : A -> outcome B) : outcome B :=
  match m with
  | Return a => f a
  | Raise e => Raise e
  end.

Notation "'try' x <- m 'in' k" := (bind m (fun x => k))
  (at level 10, x name, m at level 100, k at level 200).

Definition raises {A : Type} (m : outcome A) : bool :=
  match m with
  | Return _ => false
  | Raise _ => true
  end.

(** ** Python built-ins used by [data] *)

Module Py.

(** [str.isspace] on one character, for the code points below 256:
    tab to carriage return, the four separators 0x1c-0x1f, the space,
    NEL (0x85) and the no-break space (0xa0). *)
Definition isspace (c : ascii) : bool :=
  let n := nat_of_ascii c in
  ((9 <=? n) && (n <=? 13) || (28 <=? n) && (n <=? 32)
   || (n =? 133) || (n =? 160))%nat.

Fixpoint lstrip (s : string) : string :=
  match s with
  | EmptyString => EmptyString
  | String c s' => if isspace c then lstrip s' else s
  end.

(** [rstrip] walks the string once: a character is kept unless it is
    white space and everything after it has been stripped away. *)
Fixpoint rstrip (s : string) : string :=
  match s with
  | EmptyString => EmptyString
  | String c s' =>
      match rstrip s' with
      | EmptyString => if isspace c then EmptyString else String c EmptyString
      | r => String c r
      end
  end.

(** [s.strip()] *)
Definition strip (s : string) : string := rstrip (lstrip s).

(** [len(l)] *)
Definition len {A : Type} (l : list A) : Z := Z.of_nat (length l).

(** [math.ceil(a / b)] on two ints.  [a / b] is true division: it raises
    [ZeroDivisionError] for [b = 0] and otherwise yields the binary64
    float nearest to the quotient; [math.ceil] turns that into an int.
    For [|a| < 2^53] a quotient that is not an integer is at least
    [1/|b|] away from the next integer, more than the rounding error, and
    for [|b| < 2^1075] a non-zero quotient does not round to zero; the
    ceiling of the float is then the ceiling of the exact quotient, which
    is what is computed here ([Z.div] rounds down, for either sign of
    the divisor). *)
Definition ceil_div (a b : Z) : Z := - ((- a) / b).

(** [math.ceil(a / b)], with the exception of a zero divisor. *)
Definition ceil_truediv (a b : Z) : outcome Z :=
  if b =? 0 then Raise ZeroDivisionError else Return (ceil_div a b).

(** [list(range(start, stop, step))]: a zero step raises [ValueError];
    the number of elements is computed as CPython does. *)
Definition range (start stop step : Z) : outcome (list Z) :=
  if step =? 0 then Raise ValueError
  else
    let n :=
      if 0 <? step
      then (if start <? stop then (stop - start - 1) / step + 1 else 0)
      else (if stop <? start then (start - stop - 1) / (- step) + 1 else 0) in
    Return (map (fun k => start + Z.of_nat k * step) (seq 0 (Z.to_nat n))).

(** An index of a slice, clipped as [l[i:j]] clips it: a negative index
    counts from the end, and both ends are clamped to [0, len]. *)
Definition clip (n i : Z) : Z :=
  if i <? 0 then Z.max 0 (i + n) else Z.min i n.

(** [l[i:j]] *)
Definition slice {A : Type} (l : list A) (i j : Z) : list A :=
  let lo := clip (len l) i in
  let hi := clip (len l) j in
  take (Z.to_nat (hi - lo)) (drop (Z.to_nat lo) l).

End Py.

(** ** JSON values and truthiness *)

(** A float as [json.load] can return it. *)
Inductive pyfloat : Type :=
  | Finite (mantissa exponent : Z)   (* mantissa * 2^exponent *)
  | Infinite (negative : bool)
  | NaN.

(** What [json.load] returns; [JNull] is Python's [None]. *)
Inductive json : Type :=
  | JNull
  | JBool (b : bool)
  | JInt (n : Z)
  | JFloat (f : pyfloat)
  | JString (s : string)
  | JArray (items : list json)
  | JObject (members : list (string * json)).

(** [bool(v)]: [None], [False], zero, and the empty string, list and dict
    are false; everything else is true. *)
Definition truthy (v : json) : bool :=
  match v with
  | JNull => false
  | JBool b => b
  | JInt n => negb (n =? 0)
  | JFloat (Finite m _) => negb (m =? 0)
  | JFloat _ => true
  | JString s => negb (String.eqb s EmptyString)
  | JArray items => match items with [] => false | _ => true end
  | JObject members => match members with [] => false | _ => true end
  end.

(** ** Tasks *)

(** yapapi's [Task]: the data it was created with, and the result, which is
    [None] until [accept_result] stores one. *)
Inductive task_status : Type := Waiting | Accepted.

Record Task : Type := mkTask {
  task_data : list string;
  task_status_of : task_status;
  task_result : json;
}.

(** [Task(data=chunk)] *)
Definition new_task (chunk : list string) : Task := mkTask chunk Waiting JNull.

(** [task.accept_result(result=r)] *)
Definition accept_result (t : Task) (r : json) : Task :=
  mkTask (task_data t) Accepted r.

(** ** The partitioner *)

(** [data(dict_file, chunk_count)], given the lines that iterating over the
    opened file yields.  The generator's body runs when it is first
    advanced; everything it yields is collected in order. *)
Definition data (file_lines : list string) (chunk_count : Z) : outcome (list Task) :=
  let lines := map Py.strip file_lines in
  try chunk_size <- Py.ceil_truediv (Py.len lines) chunk_count in
  try starts <- Py.range 0 (Py.len lines) chunk_size in
  Return (map (fun i => new_task (Py.slice lines i (i + chunk_size))) starts).

(** The groups of a successful partition. *)
Definition groups (ts : list Task) : list (list string) := map task_data ts.


(** The [k]-th run of [c] elements of [l]: what the partition of [l] into
    runs of [c] has at position [k]. *)
Definition chunk_at {A : Type} (c : nat) (l : list A) (k : nat) : list A :=
  take c (drop (k * c) l).

(** ** Work contexts, temporary files and batches *)

(** The name of a temporary file: [NamedTemporaryFile] hands out a new one
    at every call, here the number of files created before it. *)
Definition tmp_name : Type := nat.

(** A command recorded in a [WorkContext]. *)
Inductive step : Type :=
  | SendJson (json_path : string) (payload : list string)
  | SendFile (src_path dst_path : string)
  | Run (cmd : string)
  | DownloadFile (src_path : string) (dst : tmp_name).

(** What the coroutine reads and writes: the commands pending in its
    [WorkContext], the temporary files (a file is in the map from its
    creation until it is closed, which deletes it), how many were created,
    how many were closed, and the tasks accepted but not yet handed to the
    consumer of [Executor.submit]. *)
Record world : Type := mkWorld {
  pending_steps : list step;
  tmp_files : gmap tmp_name string;
  tmp_created : nat;
  tmp_closed : list tmp_name;
  done_queue : list Task;
}.

Definition fresh_world : world := mkWorld [] ∅ 0 [] [].

Definition record_step (s : step) (w : world) : world :=
  mkWorld (pending_steps w ++ [s]) (tmp_files w) (tmp_created w)
          (tmp_closed w) (done_queue w).

(** [context.send_json(json_path, data)] *)
Definition send_json (json_path : string) (payload : list string) : world -> world :=
  record_step (SendJson json_path payload).

(** [context.send_file(src_path, dst_path)] *)
Definition send_file (src_path dst_path : string) : world -> world :=
  record_step (SendFile src_path dst_path).

(** [context.run(cmd)] *)
Definition run (cmd : string) : world -> world :=
  record_step (Run cmd).

(** [context.download_file(src_path, dst_path)] *)
Definition download_file (src_path : string) (dst : tmp_name) : world -> world :=
  record_step (DownloadFile src_path dst).

(** [context.commit()]: the pending commands become one batch, and the
    context starts an empty one. *)
Definition commit (w : world) : list step * world :=
  (pending_steps w,
   mkWorld [] (tmp_files w) (tmp_created w) (tmp_closed w) (done_queue w)).

(** [NamedTemporaryFile()]: a new, empty, open file. *)
Definition NamedTemporaryFile (w : world) : tmp_name * world :=
  let name := tmp_created w in
  (name,
   mkWorld (pending_steps w) (<[name := EmptyString]> (tmp_files w))
           (S (tmp_created w)) (tmp_closed w) (done_queue w)).

(** [output_file.close()]: the file is closed and deleted; closing a file
    that is not open does nothing. *)
Definition close (name : tmp_name) (w : world) : world :=
  match tmp_files w !! name with
  | Some _ =>
      mkWorld (pending_steps w) (delete name (tmp_files w)) (tmp_created w)
              (tmp_closed w ++ [name]) (done_queue w)
  | None => w
  end.

(** [task.accept_result(result=r)] also tells the Executor that the task is
    computed: the task joins the queue of tasks to hand to the consumer. *)
Definition accept (t : Task) (r : json) (w : world) : world :=
  mkWorld (pending_steps w) (tmp_files w) (tmp_created w) (tmp_closed w)
          (done_queue w ++ [accept_result t r]).

(** How a suspended coroutine is resumed: normally, or with an exception
    thrown in at the [yield] (a failed command, a cancellation, the
    deadline). *)
Inductive signal : Type :=
  | Resume
  | Throw (e : exn).

(** An asynchronous generator of batches, run up to its next suspension. *)
Inductive coroutine : Type :=
  | Finished (w : world)
  | Raised (e : exn) (w : world)
  | Yielded (batch : list step) (w : world) (k : signal -> world -> coroutine).

Section Requestor.
(** The three paths imported from the [worker] module, which is not part
    of the sources, and [args.hash]. *)
Variables WORDS_PATH HASH_PATH RESULT_PATH : string.
Variable args_hash : string.

(** [json.loads] of the standard library: [None] for text that is not
    JSON. *)
Variable json_loads : string -> option json.

(** [json.load(output_file)]: reading a closed file is a [ValueError]. *)
Definition json_load (name : tmp_name) (w : world) : outcome json :=
  match tmp_files w !! name with
  | None => Raise ValueError
  | Some text =>
      match json_loads text with
      | Some v => Return v
      | None => Raise JSONDecodeError
      end
  end.

(** [worker(context, tasks)], for the tasks the Executor hands to it. *)
Fixpoint worker (tasks : list Task) (w : world) : coroutine :=
  match tasks with
  | [] => Finished w
  | task :: tasks' =>
      let w := send_json WORDS_PATH (task_data task) w in
      let w := send_file args_hash HASH_PATH w in
      let w := run "/golem/entrypoint/worker.py" w in
      let '(output_file, w) := NamedTemporaryFile w in
      let w := download_file RESULT_PATH output_file w in
      let '(batch, w) := commit w in
      Yielded batch w (fun s w =>
        match s with
        | Throw e => Raised e w
        | Resume =>
            match json_load output_file w with
            | Raise e => Raised e w
            | Return r =>
                let w := accept task r w in
                let w := close output_file w in
                worker tasks' w
            end
        end)
  end.

(** ** The Executor, seen from the requestor *)

(** What executing a batch on a provider comes to: the text found at the
    remote path of every download, or a failure. *)
Inductive batch_result : Type :=
  | Fetched (text : string)
  | Failed (e : exn).

Variable backend : list step -> batch_result.

(** A download writes the fetched text to its local destination. *)
Definition write_download (text : string) (s : step) (w : world) : world :=
  match s with
  | DownloadFile _ dst =>
      mkWorld (pending_steps w) (<[dst := text]> (tmp_files w))
              (tmp_created w) (tmp_closed w) (done_queue w)
  | _ => w
  end.

Definition write_downloads (text : string) (batch : list step) (w : world) : world :=
  foldl (fun w s => write_download text s w) w batch.

(** What the consumer of [Executor.submit] and an observer of the
    Executor see, in order: a batch dispatched to a provider, a computed
    task handed to the consumer. *)
Inductive exec_event : Type :=
  | Dispatched (batch : list step)
  | Computed (t : Task).

(** How the stream of computed tasks ends: when the worker has finished,
    or when it has raised.  What the Executor does about a worker that
    raised is not in the sources; the model stops the stream there. *)
Inductive stream_end : Type :=
  | Exhausted
  | WorkerRaised (e : exn).

Definition hand_over (w : world) : list exec_event * world :=
  (map Computed (done_queue w),
   mkWorld (pending_steps w) (tmp_files w) (tmp_created w) (tmp_closed w) []).

(** The Executor belongs to the yapapi library, not to the sources; this
    is the schedule it follows with a single provider.  One provider
    drives one worker: at every suspension of the worker the tasks
    accepted so far are handed to the consumer, whose loop body does not
    await, then the batch is dispatched and the worker resumed with its
    result, or with the exception of the failed batch thrown in at the
    [yield]. *)
Fixpoint drive (co : coroutine) : list exec_event * stream_end * world :=
  match co with
  | Finished w =>
      let '(computed, w) := hand_over w in (computed, Exhausted, w)
  | Raised e w =>
      let '(computed, w) := hand_over w in (computed, WorkerRaised e, w)
  | Yielded batch w k =>
      let '(computed, w) := hand_over w in
      let '(evs, fin, w) :=
        match backend batch with
        | Fetched text => drive (k Resume (write_downloads text batch w))
        | Failed e => drive (k (Throw e) w)
        end in
      (computed ++ Dispatched batch :: evs, fin, w)
  end.

(** [executor.submit(worker, data_iterator)] *)
Definition submit (tasks : list Task) : list exec_event * stream_end * world :=
  drive (worker tasks fresh_world).

(** ** The consumption loop of [main] *)

(** An f-string, piece by piece: literal text, [str()] of a task, [str()]
    of a value. *)
Inductive piece : Type :=
  | Lit (s : string)
  | FmtTask (t : Task)
  | FmtValue (v : json).

(** What a run does that can be observed: the batches dispatched and the
    lines printed. *)
Inductive run_event : Type :=
  | Dispatch (batch : list step)
  | Print (line : list piece).

(** The body of the [async for] loop: the new value of [result] and the
    line printed. *)
Definition loop_body (result : json) (task : Task) : json * run_event :=
  (if truthy (task_result task) then task_result task else result,
   Print [Lit "task computed: "; FmtTask task;
          Lit ", result: "; FmtValue (task_result task)]).

(** The loop, over what the Executor does while it runs. *)
Fixpoint consume (result : json) (evs : list exec_event) : json * list run_event :=
  match evs with
  | [] => (result, [])
  | Dispatched batch :: evs' =>
      let '(result, out) := consume result evs' in
      (result, Dispatch batch :: out)
  | Computed task :: evs' =>
      let '(result, line) := loop_body result task in
      let '(result, out) := consume result evs' in
      (result, line :: out)
  end.

(** The two lines after the loop. *)
Definition report (result : json) : run_event :=
  if truthy result
  then Print [Lit "Found matching word: "; FmtValue result]
  else Print [Lit "No matching words found."].

(** [main], from the empty [result] on, given what [executor.submit] does.  An
    exception that ends the stream leaves the loop and [main]; the lines
    after the loop are not reached. *)
Definition main_on (evs : list exec_event) (fin : stream_end)
  : list run_event * outcome unit :=
  let '(result, out) := consume (JString EmptyString) evs in
  match fin with
  | Exhausted => (out ++ [report result], Return tt)
  | WorkerRaised e => (out, Raise e)
  end.

(** [main()] with one provider; [args.workers] is the int that [data]
    expects. *)
Definition main (file_lines : list string) (args_workers : Z)
  : list run_event * outcome unit :=
  match data file_lines args_workers with
  | Raise e => ([], Raise e)
  | Return tasks =>
      let '(evs, fin, _) := submit tasks in main_on evs fin
  end.

(** ** Reading a run *)

(** The batch that [worker] builds for a task: its data to the words
    path, the hash file to the hash path, the entry point, and the result
    path down to the temporary file. *)
Definition four_steps (payload : list string) (output_file : tmp_name) : list step :=
  [SendJson WORDS_PATH payload;
   SendFile args_hash HASH_PATH;
   Run "/golem/entrypoint/worker.py";
   DownloadFile RESULT_PATH output_file].

(** What becomes of the [i]-th task of a worker: the decoded result, or
    the exception of the failed batch or of [json.load]. *)
Definition unit_result (i : nat) (t : Task) : outcome json :=
  match backend (four_steps (task_data t) i) with
  | Failed e => Raise e
  | Fetched text =>
      match json_loads text with
      | Some v => Return v
      | None => Raise JSONDecodeError
      end
  end.

(** The stream of a worker whose next temporary file is the [i]-th, unit
    by unit. *)
Fixpoint run_units (i : nat) (tasks : list Task) : list exec_event * stream_end :=
  match tasks with
  | [] => ([], Exhausted)
  | t :: tasks' =>
      match unit_result i t with
      | Raise e => ([Dispatched (four_steps (task_data t) i)], WorkerRaised e)
      | Return r =>
          let '(evs, fin) := run_units (S i) tasks' in
          (Dispatched (four_steps (task_data t) i)
             :: Computed (accept_result t r) :: evs, fin)
      end
  end.

(** The value of [result] after the loop has seen the tasks [ts]. *)
Definition aggregate (result : json) (ts : list Task) : json :=
  foldl (fun r t => (loop_body r t).1) result ts.

(** The line printed for a computed task. *)
Definition computed_line (t : Task) : list piece :=
  [Lit "task computed: "; FmtTask t; Lit ", result: "; FmtValue (task_result t)].

(** What the loop makes of one event of the Executor. *)
Definition observe (ev : exec_event) : run_event :=
  match ev with
  | Dispatched b => Dispatch b
  | Computed t => Print (computed_line t)
  end.

Definition falsy (t : Task) : Prop := truthy (task_result t) = false.

Definition dispatched (evs : list exec_event) : list (list step) :=
  omap (fun ev => match ev with Dispatched b => Some b | Computed _ => None end) evs.

Definition computed (evs : list exec_event) : list Task :=
  omap (fun ev => match ev with Computed t => Some t | Dispatched _ => None end) evs.

Definition printed (out : list run_event) : list (list piece) :=
  omap (fun ev => match ev with Print line => Some line | Dispatch _ => None end) out.

Definition dispatches (out : list run_event) : list (list step) :=
  omap (fun ev => match ev with Dispatch b => Some b | Print _ => None end) out.

End Requestor.

(** ** Sample inputs *)

Module Sample.
Definition words : list string := ["cat"; "dog"; "bird"; "fish"; "wolf"].

Definition WORDS_PATH : string := "/golem/input/words.json".
Definition HASH_PATH : string := "/golem/input/hash.json".
Definition RESULT_PATH : string := "/golem/output/result.json".
Definition args_hash : string := "hash.json".

Definition quote : ascii := ascii_of_nat 34.

(** The text between an opening quote, already read, and the closing one,
    which must end the text. *)
Fixpoint quoted (s : string) : option string :=
  match s with
  | EmptyString => None
  | String c s' =>
      if Ascii.eqb c quote
      then (match s' with EmptyString => Some EmptyString | _ => None end)
      else option_map (String c) (quoted s')
  end.

(** A decoder for the two kinds of text the sample providers write:
    [null] and a string without escapes. *)
Definition loads (text : string) : option json :=
  if String.eqb text "null" then Some JNull
  else match text with
       | String c s => if Ascii.eqb c quote then option_map JString (quoted s) else None
       | EmptyString => None
       end.

Definition payload_of (batch : list step) : list string :=
  concat (omap (fun s => match s with SendJson _ p => Some p | _ => None end) batch).

Definition in_json (word : string) : string :=
  String quote (word +:+ String quote EmptyString).

(** A provider that answers with the first of the wanted words found in
    the words it was sent, and with [null] when there is none. *)
Definition provider (wanted : list string) (batch : list step) : batch_result :=
  match filter (fun word => bool_decide (word ∈ wanted)) (payload_of batch) with
  | word :: _ => Fetched (in_json word)
  | [] => Fetched "null"
  end.

(** A provider whose output for the words containing [broken] is not
    JSON. *)
Definition garbling_provider (broken : string) (batch : list step) : batch_result :=
  if bool_decide (broken ∈ payload_of batch) then Fetched "oops" else Fetched "null".

(** A provider on which the command fails for the words containing
    [broken]. *)
Definition failing_provider (broken : string) (batch : list step) : batch_result :=
  if bool_decide (broken ∈ payload_of batch) then Failed CommandExecutionError
  else Fetched "null".

Definition submit := submit WORDS_PATH HASH_PATH RESULT_PATH args_hash loads.
Definition main := main WORDS_PATH HASH_PATH RESULT_PATH args_hash loads.

(** The batch for some words and the temporary file of a given number. *)
Definition batch_of (payload : list string) (output_file : nat) : list step :=
  four_steps WORDS_PATH HASH_PATH RESULT_PATH args_hash payload output_file.

(** The units of the five words for a count of 3 and for a count of 2. *)
Definition three_units : list Task :=
  [new_task ["cat"; "dog"]; new_task ["bird"; "fish"]; new_task ["wolf"]].

Definition two_units : list Task :=
  [new_task ["cat"; "dog"; "bird"]; new_task ["fish"; "wolf"]].
End Sample.

(** ** Reading strings and batches *)

(** The first and the last character of a string. *)
Definition first_char (s : string) : option ascii :=
  match s with
  | EmptyString => None
  | String c _ => Some c
  end.

Fixpoint last_char (s : string) : option ascii :=
  match s with
  | EmptyString => None
  | String c EmptyString => Some c
  | String _ s' => last_char s'
  end.

(** A string of white space only. *)
Fixpoint all_space (s : string) : bool :=
  match s with
  | EmptyString => true
  | String c s' => Py.isspace c && all_space s'
  end.

(** A string that neither starts nor ends with white space. *)
Definition trimmed (s : string) : Prop :=
  forall c, first_char s = Some c \/ last_char s = Some c -> Py.isspace c = false.

(** The words that a batch sends to the provider. *)
Definition batch_payload (batch : list step) : list string :=
  concat (omap (fun s => match s with SendJson _ p => Some p | _ => None end) batch).
(** * Properties of the partitioner *)

Section Chunks.
Context {A : Type}.
Implicit Types (l : list A) (c n k : nat).

Lemma concat_chunks c l n :
  concat (map (chunk_at c l) (seq 0 n)) = take (n * c) l.
Proof.
  induction n as [|n IH]; [done|].
  rewrite seq_S, map_app, concat_app, IH. simpl.
  rewrite app_nil_r. unfold chunk_at.
  rewrite take_take_drop. f_equal. lia.
Qed.

Lemma length_chunk_at c l k :
  length (chunk_at c l k) = (c `min` (length l - k * c))%nat.
Proof. unfold chunk_at. by rewrite length_take, length_drop. Qed.

Lemma slice_take_drop l (i c : nat) :
  Py.slice l (Z.of_nat i) (Z.of_nat i + Z.of_nat c) = take c (drop i l).
Proof.
  unfold Py.slice, Py.clip, Py.len.
  destruct (Z.ltb_spec (Z.of_nat i) 0); [lia|].
  destruct (Z.ltb_spec (Z.of_nat i + Z.of_nat c) 0); [lia|].
  destruct (decide (i + c <= length l)%nat) as [Hfit|Hover].
  - f_equal; [lia|f_equal; lia].
  - destruct (decide (i <= length l)%nat) as [Hin|Hout].
    + replace (Z.to_nat (Z.of_nat i `min` Z.of_nat (length l))) with i by lia.
      rewrite !take_ge; [done| |]; rewrite length_drop; lia.
    + rewrite !(drop_ge l) by lia. by rewrite !take_nil.
Qed.

Lemma slice_chunk c l k :
  Py.slice l (Z.of_nat k * Z.of_nat c) (Z.of_nat k * Z.of_nat c + Z.of_nat c)
  = chunk_at c l k.
Proof. rewrite <- Nat2Z.inj_mul. apply slice_take_drop. Qed.
End Chunks.

(** Ceiling division, for a positive divisor. *)
Lemma ceil_div_bounds a b :
  0 < b -> b * (Py.ceil_div a b - 1) < a <= b * Py.ceil_div a b.
Proof.
  intros Hb. unfold Py.ceil_div.
  pose proof (Z.div_mod (- a) b ltac:(lia)).
  pose proof (Z.mod_pos_bound (- a) b Hb). lia.
Qed.

Lemma ceil_div_unique a b q :
  0 < b -> b * (q - 1) < a <= b * q -> Py.ceil_div a b = q.
Proof.
  intros Hb Hq. pose proof (ceil_div_bounds a b Hb). nia.
Qed.

Lemma ceil_div_pos a b : 0 < b -> 0 < a -> 0 < Py.ceil_div a b.
Proof. intros Hb Ha. pose proof (ceil_div_bounds a b Hb). nia. Qed.

(** The number of elements of [range(0, L, c)] is [ceil(L / c)]. *)
Lemma range_count L c :
  0 < c -> 0 < L -> (L - 0 - 1) / c + 1 = Py.ceil_div L c.
Proof.
  intros Hc HL. symmetry. apply ceil_div_unique; [done|].
  pose proof (Z.div_mod (L - 0 - 1) c ltac:(lia)).
  pose proof (Z.mod_pos_bound (L - 0 - 1) c Hc). lia.
Qed.

Section Partition.
Variable file_lines : list string.
Variable chunk_count : Z.
Hypothesis some_lines : file_lines <> [].
Hypothesis positive_count : 1 <= chunk_count.

Let lines := map Py.strip file_lines.
Let L := Py.len lines.
Let c := Py.ceil_div L chunk_count.
Let n := Py.ceil_div L c.

Lemma partition_L_pos : 0 < L.
Proof.
  subst L lines. unfold Py.len. rewrite length_map.
  destruct file_lines; [done|simpl; lia].
Qed.

Lemma partition_c_pos : 0 < c.
Proof. apply ceil_div_pos; [lia|apply partition_L_pos]. Qed.

Lemma partition_n_pos : 0 < n.
Proof. apply ceil_div_pos; [apply partition_c_pos|apply partition_L_pos]. Qed.

(** With at least one line and a positive count, [data] returns the
    chunks of [ceil(L / chunk_count)] lines, [ceil(L / chunk_size)] of
    them. *)
Lemma data_chunks :
  data file_lines chunk_count
  = Return (map (fun k => new_task (chunk_at (Z.to_nat c) lines k))
                (seq 0 (Z.to_nat n))).
Proof.
  pose proof partition_L_pos as HL. pose proof partition_c_pos as Hc.
  unfold data, Py.ceil_truediv.
  destruct (Z.eqb_spec chunk_count 0) as [?|_]; [lia|]. simpl.
  fold lines L c. unfold Py.range.
  destruct (Z.eqb_spec c 0) as [?|_]; [lia|]. simpl.
  destruct (Z.ltb_spec 0 c) as [_|?]; [|lia].
  destruct (Z.ltb_spec 0 L) as [_|?]; [|lia].
  rewrite range_count by done. fold n.
  f_equal. rewrite map_map. apply map_ext. intros k. f_equal.
  rewrite <- (slice_chunk (Z.to_nat c) lines k).
  rewrite Z2Nat.id by lia. f_equal; lia.
Qed.

Lemma groups_of_data ts :
  data file_lines chunk_count = Return ts ->
  groups ts = map (chunk_at (Z.to_nat c) lines) (seq 0 (Z.to_nat n)).
Proof.
  rewrite data_chunks by done. intros [= <-].
  unfold groups. rewrite map_map. by apply map_ext.
Qed.

Lemma chunk_arith :
  0 < L /\ 0 < c /\ 0 < n /\
  chunk_count * (c - 1) < L <= chunk_count * c /\
  c * (n - 1) < L <= c * n.
Proof.
  pose proof partition_L_pos as HL.
  pose proof partition_c_pos as Hc.
  pose proof partition_n_pos as Hn.
  repeat split; try done;
    try (apply (ceil_div_bounds L chunk_count); lia);
    apply (ceil_div_bounds L c); lia.
Qed.

Lemma group_count_le : n <= chunk_count.
Proof. destruct chunk_arith as (HL & Hc & Hn & HN & Hcn). nia. Qed.


Lemma concat_groups :
  concat (map (chunk_at (Z.to_nat c) lines) (seq 0 (Z.to_nat n))) = lines.
Proof.
  destruct chunk_arith as (HL & Hc & Hn & HN & Hcn).
  rewrite concat_chunks. apply take_ge.
  subst L. unfold Py.len in *. nia.
Qed.

Lemma length_group k :
  (k < Z.to_nat n)%nat ->
  Py.len (chunk_at (Z.to_nat c) lines k)
  = if decide (S k < Z.to_nat n)%nat then c else L - Z.of_nat k * c.
Proof.
  destruct chunk_arith as (HL & Hc & Hn & HN & Hcn). intros Hk.
  unfold Py.len at 1. rewrite length_chunk_at.
  subst L. unfold Py.len in *.
  case_decide; nia.
Qed.
End Partition.

Lemma len_strip_lines file_lines :
  Py.len (map Py.strip file_lines) = Py.len file_lines.
Proof. unfold Py.len. by rewrite length_map. Qed.





(** C9: the five words with a count of 2 give the groups of three and of
    two words, in that order; any two lines with a count of 3 give two
    groups of one record each. *)
Theorem data_examples :
  data ["cat"; "dog"; "bird"; "fish"; "wolf"] 2
  = Return [new_task ["cat"; "dog"; "bird"]; new_task ["fish"; "wolf"]] /\
  (forall a b : string,
     data [a; b] 3 = Return [new_task [Py.strip a]; new_task [Py.strip b]]).
Proof. split; [reflexivity|]. intros a b. reflexivity. Qed.

(** C2, at the input where the partition fails: with no line at all the
    chunk size is 0 and [range] refuses the zero step, whatever the
    (non-zero) count; a zero count fails in the division before that. *)
Theorem data_no_lines (N : Z) :
  data [] N = Raise (if N =? 0 then ZeroDivisionError else ValueError).
Proof.
  unfold data, Py.ceil_truediv. destruct (N =? 0); [reflexivity|].
  simpl. unfold Py.range.
  replace (Py.ceil_div (Py.len (@nil string)) N) with 0; [reflexivity|].
  unfold Py.ceil_div, Py.len. simpl. by rewrite Zdiv_0_l.
Qed.

(** C5, as the code has it: a zero count fails with [ZeroDivisionError];
    a negative count gives a chunk size that is zero or negative, so
    that [range] raises [ValueError] (fewer than [-N] lines) or is empty
    and the partition succeeds with no group at all. *)
Theorem data_nonpositive_count (file_lines : list string) (N : Z) :
  N <= 0 ->
  data file_lines N =
    if N =? 0 then Raise ZeroDivisionError
    else if Py.len file_lines <? - N then Raise ValueError
    else Return [].
Proof.
  intros HN. unfold data, Py.ceil_truediv.
  destruct (Z.eqb_spec N 0) as [?|Hnz]; [reflexivity|]. simpl.
  rewrite len_strip_lines.
  assert (HL : 0 <= Py.len file_lines) by (unfold Py.len; lia).
  assert (Hc : Py.ceil_div (Py.len file_lines) N = - (Py.len file_lines / - N)).
  { unfold Py.ceil_div. by rewrite <- (Z.div_opp_opp (Py.len file_lines) (- N)), Z.opp_involutive by lia. }
  rewrite Hc. unfold Py.range.
  destruct (Z.ltb_spec (Py.len file_lines) (- N)) as [Hlt|Hge].
  - rewrite Z.div_small by lia. reflexivity.
  - assert (0 < Py.len file_lines / - N) by (apply Z.div_str_pos; lia).
    destruct (Z.eqb_spec (- (Py.len file_lines / - N)) 0); [lia|]. simpl.
    destruct (Z.ltb_spec 0 (- (Py.len file_lines / - N))); [lia|].
    destruct (Z.ltb_spec (Py.len file_lines) 0); [lia|]. reflexivity.
Qed.

Lemma data_nonpositive_count_witness :
  data Sample.words (-2) = Return [] /\
  data Sample.words (-7) = Raise ValueError /\
  data Sample.words 0 = Raise ZeroDivisionError.
Proof.
  split; [|split].
  - apply (data_nonpositive_count Sample.words (-2)). lia.
  - apply (data_nonpositive_count Sample.words (-7)). lia.
  - apply (data_nonpositive_count Sample.words 0). lia.
Defined.

(** C5 as stated does not hold: with the negative count -2 the partition
    of the five words succeeds and emits no group, and with the count 0 it
    fails in the division. *)
Lemma data_nonpositive_count_counterexample :
  -2 <= 0 /\
  raises (data Sample.words (-2)) = false /\
  data Sample.words (-2) = Return [] /\
  data Sample.words 0 = Raise ZeroDivisionError.
Proof. split; [lia|]. split; [reflexivity|]. split; reflexivity. Qed.

(** * The worker under one provider *)

Section Stream.
Local Open Scope nat_scope.
Variables WORDS_PATH HASH_PATH RESULT_PATH args_hash : string.
Variable json_loads : string -> option json.
Variable backend : list step -> batch_result.

Abbreviation worker := (worker WORDS_PATH HASH_PATH RESULT_PATH args_hash json_loads).
Abbreviation drive := (drive backend).
Abbreviation four_steps := (four_steps WORDS_PATH HASH_PATH RESULT_PATH args_hash).
Abbreviation unit_result := (unit_result WORDS_PATH HASH_PATH RESULT_PATH args_hash json_loads backend).
Abbreviation run_units := (run_units WORDS_PATH HASH_PATH RESULT_PATH args_hash json_loads backend).

(** The coroutine itself, at its first task: it suspends with the batch of
    that task; resumed with an exception, or with a file that [json.load]
    cannot read, it ends with the exception, in the world as it is: the
    task is not accepted, the file not closed, and the tasks after it are
    not looked at. *)
Lemma worker_first_task (t : Task) (ts : list Task) (w : world) :
  exists k w1,
    worker (t :: ts) w
    = Yielded (pending_steps w ++ four_steps (task_data t) (tmp_created w)) w1 k /\
    tmp_files w1 !! tmp_created w = Some EmptyString /\
    (forall e w', k (Throw e) w' = Raised e w') /\
    (forall e w', json_load json_loads (tmp_created w) w' = Raise e ->
                  k Resume w' = Raised e w').
Proof.
  destruct w as [p f c cl dq]. eexists _, _. split; [|split; [|split]].
  - cbn. unfold four_steps. by rewrite <- !app_assoc.
  - cbn. apply lookup_insert_eq.
  - done.
  - intros e w' Hload. cbn in *. by rewrite Hload.
Qed.

(** The stream that [drive] makes of a worker is the one of [run_units],
    after the tasks that were waiting to be handed over. *)
Lemma drive_worker tasks : forall w,
  pending_steps w = [] ->
  (drive (worker tasks w)).1
  = (map Computed (done_queue w) ++ (run_units (tmp_created w) tasks).1,
     (run_units (tmp_created w) tasks).2).
Proof.
  induction tasks as [|t ts IH]; intros [p f c cl dq] Hp; simpl in Hp; subst p.
  - simpl. by rewrite app_nil_r.
  - cbn -[drive]. cbn.
    unfold unit_result. fold (four_steps (task_data t) c).
    destruct (backend (four_steps (task_data t) c)) as [text|e]; cbn.
    + unfold json_load. cbn. rewrite lookup_insert_eq.
      destruct (json_loads text) as [v|]; cbn; [|done].
      unfold close. cbn. rewrite lookup_insert_eq.
      match goal with
      | |- context [drive (worker ts ?w9)] =>
          specialize (IH w9 eq_refl); destruct (drive (worker ts w9)) as [[evs fin] wf]
      end.
      cbn in IH. injection IH as -> ->.
      destruct (run_units (S c) ts) as [evs' fin']. done.
    + done.
Qed.

Lemma submit_stream tasks :
  (submit WORDS_PATH HASH_PATH RESULT_PATH args_hash json_loads backend tasks).1
  = run_units 0 tasks.
Proof.
  unfold submit. rewrite drive_worker by done. simpl.
  by destruct (run_units 0 tasks).
Qed.


Lemma run_units_dispatched tasks : forall i,
  exists j, (j <= length tasks)%nat /\
    dispatched (run_units i tasks).1
    = imap (fun k t => four_steps (task_data t) (i + k)) (take j tasks) /\
    ((run_units i tasks).2 = Exhausted -> j = length tasks).
Proof.
  induction tasks as [|t ts IH]; intros i; simpl.
  - exists 0%nat. by rewrite take_nil.
  - destruct (unit_result i t) as [v|e].
    + destruct (IH (S i)) as (j & Hj & Hd & Hfin).
      destruct (run_units (S i) ts) as [evs fin]. simpl in *.
      exists (S j). split; [lia|]. split; [|by intros ->%Hfin].
      cbn. rewrite Nat.add_0_r. f_equal. rewrite Hd.
      apply imap_ext. intros k t' _. simpl. f_equal. lia.
    + exists 1%nat. split; [lia|]. split; [|done].
      cbn. by rewrite Nat.add_0_r.
Qed.


(** The temporary files after a worker has run: when no unit failed,
    every file it created has been closed, once, in order, and none is
    left; when a unit failed, the file of that unit is still there and
    was not closed. *)
Lemma drive_worker_files tasks : forall w,
  pending_steps w = [] ->
  (forall j, tmp_created w <= j -> tmp_files w !! j = None) ->
  let wf := (drive (worker tasks w)).2 in
  match (run_units (tmp_created w) tasks).2 with
  | Exhausted =>
      tmp_files wf = tmp_files w /\
      tmp_closed wf = tmp_closed w ++ seq (tmp_created w) (length tasks)
  | WorkerRaised _ =>
      exists n, n < length tasks /\
        tmp_closed wf = tmp_closed w ++ seq (tmp_created w) n /\
        is_Some (tmp_files wf !! (tmp_created w + n))
  end.
Proof.
  induction tasks as [|t ts IH]; intros [p f c cl dq] Hp Hfresh;
    simpl in Hp, Hfresh; subst p.
  - simpl. by rewrite app_nil_r.
  - cbn -[drive]. cbn.
    unfold unit_result. fold (four_steps (task_data t) c).
    destruct (backend (four_steps (task_data t) c)) as [text|e]; cbn.
    + unfold json_load. cbn. rewrite lookup_insert_eq.
      destruct (json_loads text) as [v|]; cbn.
      * unfold close. cbn. rewrite lookup_insert_eq.
        match goal with
        | |- context [drive (worker ts ?w9)] =>
            specialize (IH w9 eq_refl); destruct (drive (worker ts w9)) as [[evs fin] wf]
        end.
        cbn in IH.
        rewrite !delete_insert_eq, (delete_id f c) in IH by (apply Hfresh; lia).
        specialize (IH ltac:(intros j Hj; apply Hfresh; lia)).
        destruct (run_units (S c) ts) as [evs' [|e']]; cbn in *.
        -- destruct IH as [-> ->]. split; [done|]. by rewrite <- app_assoc.
        -- destruct IH as (n & Hn & -> & Hopen). exists (S n).
           split; [lia|]. split; [by rewrite <- app_assoc|].
           by replace (c + S n) with (S (c + n)) by lia.
      * exists 0. split; [lia|]. split; [by rewrite app_nil_r|].
        rewrite Nat.add_0_r, lookup_insert_eq. by eexists.
    + exists 0. split; [lia|]. split; [by rewrite app_nil_r|].
      rewrite Nat.add_0_r, lookup_insert_eq. by eexists.
Qed.

Abbreviation submit := (submit WORDS_PATH HASH_PATH RESULT_PATH args_hash json_loads backend).

(** C4: the batches that a worker has dispatched are, task by task and in
    the order of the tasks, the four steps built from the data of the
    task and from the temporary file created for it; every task of the
    stream has its batch when no unit failed. *)
Theorem worker_batches (tasks : list Task) :
  exists j, j <= length tasks /\
    dispatched (submit tasks).1.1
    = imap (fun k t => four_steps (task_data t) k) (take j tasks) /\
    ((submit tasks).1.2 = Exhausted -> j = length tasks).
Proof.
  rewrite submit_stream. apply (run_units_dispatched tasks 0).
Qed.


(** The temporary files of a whole run of the worker. *)
Lemma submit_files tasks :
  match (submit tasks).1.2 with
  | Exhausted =>
      tmp_files (submit tasks).2 = ∅ /\
      tmp_closed (submit tasks).2 = seq 0 (length tasks)
  | WorkerRaised _ =>
      exists n, n < length tasks /\
        tmp_closed (submit tasks).2 = seq 0 n /\
        is_Some (tmp_files (submit tasks).2 !! n)
  end.
Proof.
  rewrite submit_stream.
  apply (drive_worker_files tasks fresh_world); [done|].
  intros j _. apply lookup_empty.
Qed.
End Stream.

(** * The consumption loop *)

Section Consume.
Implicit Types (evs : list exec_event) (ts : list Task) (r : json).

Lemma consume_eq r evs :
  consume r evs = (aggregate r (computed evs), map observe evs).
Proof.
  revert r. induction evs as [|[b|t] evs IH]; intros r; simpl; [done| |].
  - by rewrite IH.
  - by rewrite IH.
Qed.

Lemma aggregate_app r ts1 ts2 :
  aggregate r (ts1 ++ ts2) = aggregate (aggregate r ts1) ts2.
Proof. apply foldl_app. Qed.

Lemma aggregate_falsy r ts : Forall falsy ts -> aggregate r ts = r.
Proof.
  intros Hts. revert r. induction Hts as [|t ts Ht _ IH]; intros r; [done|].
  simpl. unfold falsy in Ht. rewrite Ht. apply IH.
Qed.

Lemma aggregate_last r ts1 t ts2 :
  truthy (task_result t) = true -> Forall falsy ts2 ->
  aggregate r (ts1 ++ t :: ts2) = task_result t.
Proof.
  intros Ht Hts2. rewrite aggregate_app. simpl. rewrite Ht.
  by apply aggregate_falsy.
Qed.

Lemma Exists_last_truthy ts :
  Exists (fun t => truthy (task_result t) = true) ts ->
  exists ts1 t ts2,
    ts = ts1 ++ t :: ts2 /\ truthy (task_result t) = true /\ Forall falsy ts2.
Proof.
  induction ts as [|t ts IH]; intros Hex; [by inversion Hex|].
  destruct (decide (Exists (fun t => truthy (task_result t) = true) ts)) as [Hlater|Hnone].
  - destruct (IH Hlater) as (ts1 & t' & ts2 & -> & Ht' & Hts2).
    by exists (t :: ts1), t', ts2.
  - inversion Hex as [? ? Ht|]; [|done]. exists [], t, ts.
    split; [done|]. split; [done|].
    apply Forall_forall. intros t' Hin. unfold falsy.
    destruct (truthy (task_result t')) eqn:Ht'; [|done].
    exfalso. apply Hnone, Exists_exists. eauto.
Qed.

Lemma computed_app evs1 evs2 :
  computed (evs1 ++ evs2) = computed evs1 ++ computed evs2.
Proof. apply omap_app. Qed.

Lemma printed_observe evs :
  printed (map observe evs) = map computed_line (computed evs).
Proof. induction evs as [|[b|t] evs IH]; simpl; [done|done|]. cbn. by rewrite IH. Qed.

Lemma dispatches_observe evs : dispatches (map observe evs) = dispatched evs.
Proof. induction evs as [|[b|t] evs IH]; simpl; [done| |done]. cbn. by rewrite IH. Qed.

(** C10: with two truthy results, and none after the second, the loop has
    a line for every event of the stream, before and after each of them,
    and the word reported is the second result: the later one replaced
    the earlier one. *)
Theorem last_truthy_result_reported evs1 (t1 : Task) evs2 (t2 : Task) evs3 :
  truthy (task_result t1) = true ->
  truthy (task_result t2) = true ->
  Forall falsy (computed evs3) ->
  main_on (evs1 ++ Computed t1 :: evs2 ++ Computed t2 :: evs3) Exhausted
  = (map observe (evs1 ++ Computed t1 :: evs2 ++ Computed t2 :: evs3)
       ++ [Print [Lit "Found matching word: "; FmtValue (task_result t2)]],
     Return tt).
Proof.
  intros Ht1 Ht2 Hrest. unfold main_on. rewrite consume_eq.
  replace (evs1 ++ Computed t1 :: evs2 ++ Computed t2 :: evs3)
    with ((evs1 ++ Computed t1 :: evs2) ++ Computed t2 :: evs3)
    by (by rewrite <- app_assoc).
  rewrite (computed_app _ (Computed t2 :: evs3)).
  change (computed (Computed t2 :: evs3)) with (t2 :: computed evs3).
  rewrite aggregate_last by done. unfold report. by rewrite Ht2.
Qed.
End Consume.

(** * A whole run, with one provider *)

Section Run.
Local Open Scope nat_scope.
Variables WORDS_PATH HASH_PATH RESULT_PATH args_hash : string.
Variable json_loads : string -> option json.
Variable backend : list step -> batch_result.

Abbreviation four_steps := (four_steps WORDS_PATH HASH_PATH RESULT_PATH args_hash).
Abbreviation unit_result := (unit_result WORDS_PATH HASH_PATH RESULT_PATH args_hash json_loads backend).
Abbreviation run_units := (run_units WORDS_PATH HASH_PATH RESULT_PATH args_hash json_loads backend).
Abbreviation main := (main WORDS_PATH HASH_PATH RESULT_PATH args_hash json_loads backend).









End Run.

(** * Sample runs *)

Local Open Scope nat_scope.


Lemma worker_batches_witness :
  dispatched (Sample.submit (Sample.provider ["wolf"]) Sample.three_units).1.1
  = [Sample.batch_of ["cat"; "dog"] 0;
     Sample.batch_of ["bird"; "fish"] 1;
     Sample.batch_of ["wolf"] 2].
Proof.
  destruct (worker_batches Sample.WORDS_PATH Sample.HASH_PATH Sample.RESULT_PATH
              Sample.args_hash Sample.loads (Sample.provider ["wolf"])
              Sample.three_units) as (j & _ & Hbatches & Hall).
  unfold Sample.submit. rewrite Hbatches, (Hall eq_refl). reflexivity.
Defined.



(** C8, at inputs where the release is missed: when the output of a unit
    is not JSON, or its batch fails, the worker ends with the temporary
    file of that unit still open and never closed; in the run where every
    unit is computed, each of the two files is closed once and none is
    left. *)
Theorem temporary_file_left_open :
  (let w := (Sample.submit (Sample.garbling_provider "cat") Sample.two_units).2 in
   tmp_files w !! 0%nat = Some "oops" /\ tmp_closed w = [] /\ tmp_created w = 1%nat) /\
  (let w := (Sample.submit (Sample.failing_provider "cat") Sample.two_units).2 in
   tmp_files w !! 0%nat = Some EmptyString /\ tmp_closed w = [] /\ tmp_created w = 1%nat) /\
  (let w := (Sample.submit (Sample.provider ["cat"]) Sample.two_units).2 in
   tmp_files w = ∅ /\ tmp_closed w = [0%nat; 1%nat] /\ tmp_created w = 2%nat).
Proof. repeat split; reflexivity. Qed.

Lemma last_truthy_result_reported_witness :
  main_on [Dispatched (Sample.batch_of ["fish"; "wolf"] 1);
           Computed (accept_result (new_task ["fish"; "wolf"]) (JString "wolf"));
           Dispatched (Sample.batch_of ["cat"; "dog"; "bird"] 0);
           Computed (accept_result (new_task ["cat"; "dog"; "bird"]) (JString "cat"));
           Computed (accept_result (new_task []) JNull)]
          Exhausted
  = ([Dispatch (Sample.batch_of ["fish"; "wolf"] 1);
      Print (computed_line (accept_result (new_task ["fish"; "wolf"]) (JString "wolf")));
      Dispatch (Sample.batch_of ["cat"; "dog"; "bird"] 0);
      Print (computed_line (accept_result (new_task ["cat"; "dog"; "bird"]) (JString "cat")));
      Print (computed_line (accept_result (new_task []) JNull));
      Print [Lit "Found matching word: "; FmtValue (JString "cat")]],
     Return tt).
Proof.
  apply (last_truthy_result_reported
           [Dispatched (Sample.batch_of ["fish"; "wolf"] 1)]
           (accept_result (new_task ["fish"; "wolf"]) (JString "wolf"))
           [Dispatched (Sample.batch_of ["cat"; "dog"; "bird"] 0)]
           (accept_result (new_task ["cat"; "dog"; "bird"]) (JString "cat"))
           [Computed (accept_result (new_task []) JNull)]).
  - reflexivity.
  - reflexivity.
  - repeat constructor.
Defined.




(** * Further properties of the partitioner *)

Local Open Scope Z_scope.

Section Strip.
Implicit Types (s : string) (c : ascii).

Lemma append_cons a s1 s2 : String a s1 +:+ s2 = String a (s1 +:+ s2).
Proof. reflexivity. Qed.

Lemma append_empty s : EmptyString +:+ s = s.
Proof. reflexivity. Qed.

Lemma lstrip_split s :
  exists pre, s = pre +:+ Py.lstrip s /\ all_space pre = true.
Proof.
  induction s as [|a s IH]; simpl.
  - by exists EmptyString.
  - destruct (Py.isspace a) eqn:Ha.
    + destruct IH as (pre & Hs & Hpre). exists (String a pre).
      rewrite append_cons. simpl. rewrite Ha, Hpre. split; [by f_equal|done].
    + by exists EmptyString.
Qed.

Lemma lstrip_first s c : first_char (Py.lstrip s) = Some c -> Py.isspace c = false.
Proof.
  induction s as [|a s IH]; simpl; [done|].
  destruct (Py.isspace a) eqn:Ha; [done|]. simpl. by intros [= <-].
Qed.

Lemma lstrip_fixed s :
  (forall c, first_char s = Some c -> Py.isspace c = false) -> Py.lstrip s = s.
Proof. destruct s as [|a s]; simpl; [done|]. intros H. by rewrite (H a). Qed.

Lemma rstrip_split s :
  exists post, s = Py.rstrip s +:+ post /\ all_space post = true.
Proof.
  induction s as [|a s IH]; simpl.
  - by exists EmptyString.
  - destruct IH as (post & Hs & Hpost).
    destruct (Py.rstrip s) as [|b r] eqn:Hr.
    + rewrite append_empty in Hs. destruct (Py.isspace a) eqn:Ha.
      * exists (String a post). rewrite append_empty. simpl.
        rewrite Ha, Hpost. split; [by f_equal|done].
      * exists post. rewrite append_cons, append_empty. split; [by f_equal|done].
    + exists post. rewrite append_cons. split; [by f_equal|done].
Qed.

Lemma rstrip_last s c : last_char (Py.rstrip s) = Some c -> Py.isspace c = false.
Proof.
  induction s as [|a s IH]; simpl; [done|].
  destruct (Py.rstrip s) as [|b r] eqn:Hr.
  - destruct (Py.isspace a) eqn:Ha; simpl; [done|]. by intros [= <-].
  - simpl. exact IH.
Qed.

Lemma rstrip_first s c : first_char (Py.rstrip s) = Some c -> first_char s = Some c.
Proof.
  destruct s as [|a s]; simpl; [done|].
  destruct (Py.rstrip s) as [|b r]; [|done].
  by destruct (Py.isspace a).
Qed.

Lemma rstrip_fixed s :
  (forall c, last_char s = Some c -> Py.isspace c = false) -> Py.rstrip s = s.
Proof.
  induction s as [|a s IH]; simpl; [done|]. intros H.
  destruct s as [|b s'].
  - simpl. by rewrite (H a).
  - rewrite IH by exact H. done.
Qed.

Lemma strip_trimmed s : trimmed (Py.strip s).
Proof.
  intros c [Hc|Hc].
  - apply (lstrip_first s), rstrip_first, Hc.
  - apply (rstrip_last (Py.lstrip s)), Hc.
Qed.

Lemma strip_fixed s : trimmed s -> Py.strip s = s.
Proof.
  intros Hs. unfold Py.strip.
  rewrite lstrip_fixed by (intros c Hc; apply Hs; by left).
  apply rstrip_fixed. intros c Hc. apply Hs. by right.
Qed.

Lemma strip_idempotent s : Py.strip (Py.strip s) = Py.strip s.
Proof. apply strip_fixed, strip_trimmed. Qed.

Lemma all_space_lstrip s : all_space s = true -> Py.lstrip s = EmptyString.
Proof.
  induction s as [|a s IH]; simpl; [done|].
  intros [Ha Hs]%andb_prop. rewrite Ha. by apply IH.
Qed.

Lemma all_space_app s1 s2 :
  all_space (s1 +:+ s2) = all_space s1 && all_space s2.
Proof. induction s1 as [|a s1 IH]; simpl; [done|]. by rewrite IH, andb_assoc. Qed.

(** [line.strip()] takes white space, and nothing else, off both ends: the
    line is the stripped text between two runs of white space, the
    stripped text neither starts nor ends with white space, and it is
    empty exactly when the line is white space only.  Stripping leaves a
    text alone exactly when it has no white space at its ends. *)
Theorem strip_spec s :
  (exists pre post,
     s = pre +:+ Py.strip s +:+ post /\
     all_space pre = true /\ all_space post = true) /\
  trimmed (Py.strip s) /\
  (Py.strip s = EmptyString <-> all_space s = true) /\
  (Py.strip s = s <-> trimmed s).
Proof.
  split; [|split; [apply strip_trimmed|split]].
  - destruct (lstrip_split s) as (pre & Hs & Hpre).
    destruct (rstrip_split (Py.lstrip s)) as (post & Hl & Hpost).
    exists pre, post. split; [|done]. unfold Py.strip.
    by rewrite <- Hl.
  - split.
    + intros Hempty.
      destruct (lstrip_split s) as (pre & Hs & Hpre).
      destruct (rstrip_split (Py.lstrip s)) as (post & Hl & Hpost).
      unfold Py.strip in Hempty. rewrite Hempty, append_empty in Hl.
      rewrite Hs, Hl, all_space_app, Hpre, Hpost. done.
    + intros Hall. unfold Py.strip. by rewrite all_space_lstrip.
  - split; [|apply strip_fixed]. intros <-. apply strip_trimmed.
Qed.
End Strip.

Section MorePartition.

(** What [data] returns depends on the lines through their stripped text
    only. *)
Lemma data_of_stripped (file_lines file_lines' : list string) (N : Z) :
  map Py.strip file_lines' = map Py.strip file_lines ->
  data file_lines' N = data file_lines N.
Proof. intros Heq. unfold data. by rewrite Heq. Qed.

Lemma data_returns_nonempty (file_lines : list string) (N : Z) ts :
  1 <= N -> data file_lines N = Return ts -> file_lines <> [].
Proof.
  intros HN Hdata ->. unfold data, Py.ceil_truediv in Hdata.
  destruct (Z.eqb_spec N 0); [lia|]. simpl in Hdata.
  unfold Py.range, Py.ceil_div, Py.len in Hdata. simpl in Hdata.
  done.
Qed.

Lemma data_concat (file_lines : list string) (N : Z) ts :
  1 <= N -> data file_lines N = Return ts ->
  concat (groups ts) = map Py.strip file_lines.
Proof.
  intros HN Hdata.
  pose proof (data_returns_nonempty _ _ _ HN Hdata) as Hne.
  rewrite (groups_of_data file_lines N Hne HN _ Hdata).
  by apply concat_groups.
Qed.

Lemma data_negative (file_lines : list string) (N : Z) ts :
  N <= 0 -> data file_lines N = Return ts -> ts = [].
Proof.
  intros HN. unfold data, Py.ceil_truediv.
  destruct (Z.eqb_spec N 0) as [?|Hnz]; [done|]. simpl.
  rewrite len_strip_lines.
  assert (HL : 0 <= Py.len file_lines) by (unfold Py.len; lia).
  assert (Hc : Py.ceil_div (Py.len file_lines) N = - (Py.len file_lines / - N)).
  { unfold Py.ceil_div.
    by rewrite <- (Z.div_opp_opp (Py.len file_lines) (- N)), Z.opp_involutive by lia. }
  rewrite Hc. unfold Py.range.
  assert (0 <= Py.len file_lines / - N) by (apply Z.div_pos; lia).
  destruct (Z.eqb_spec (- (Py.len file_lines / - N)) 0); [done|]. simpl.
  destruct (Z.ltb_spec 0 (- (Py.len file_lines / - N))); [lia|].
  destruct (Z.ltb_spec (Py.len file_lines) 0); [lia|]. simpl. by intros [= <-].
Qed.

(** Whatever the count, the records that [data] emits are stripped: none
    starts or ends with white space, and stripping one again changes
    nothing. *)
Theorem data_records_trimmed (file_lines : list string) (N : Z) (ts : list Task) :
  data file_lines N = Return ts ->
  Forall (Forall (fun r => trimmed r /\ Py.strip r = r)) (groups ts).
Proof.
  intros Hdata. destruct (Z.le_gt_cases N 0) as [Hneg|Hpos].
  - by rewrite (data_negative _ _ _ Hneg Hdata).
  - pose proof (data_concat file_lines N ts ltac:(lia) Hdata) as Hcat.
    apply Forall_forall. intros g Hg. apply Forall_forall. intros r Hr.
    assert (Hin : r ∈ map Py.strip file_lines).
    { rewrite <- Hcat. apply list_elem_of_In, in_concat.
      exists g. split; by apply list_elem_of_In. }
    apply list_elem_of_fmap in Hin as (line & -> & _).
    split; [apply strip_trimmed|apply strip_idempotent].
Qed.

(** Partitioning is idempotent on its own output: the records of the
    groups, put back in one list, are partitioned into the same tasks. *)
Theorem data_idempotent (file_lines : list string) (N : Z) (ts : list Task) :
  1 <= N ->
  data file_lines N = Return ts ->
  data (concat (groups ts)) N = Return ts.
Proof.
  intros HN Hdata. rewrite <- Hdata. apply data_of_stripped.
  rewrite (data_concat _ _ _ HN Hdata), map_map.
  apply map_ext. intros line. apply strip_idempotent.
Qed.
End MorePartition.

Section Positions.
Local Open Scope nat_scope.

Lemma lookup_chunk_at {A : Type} (c : nat) (l : list A) (k j : nat) :
  j < c -> chunk_at c l k !! j = l !! (k * c + j).
Proof.
  intros Hj. unfold chunk_at. rewrite lookup_take, decide_True by done.
  apply lookup_drop.
Qed.

(** The groups are consecutive runs of the input: with a chunk size of
    [c], record [i] of the stripped lines is record [i mod c] of group
    [i / c]. *)
Theorem data_record_position (file_lines : list string) (N : Z)
    (ts : list Task) (i : nat) :
  (1 <= N)%Z ->
  data file_lines N = Return ts ->
  i < length file_lines ->
  let c := Z.to_nat (Py.ceil_div (Py.len file_lines) N) in
  groups ts !! (i / c) ≫= (fun g => g !! (i mod c))
  = map Py.strip file_lines !! i.
Proof.
  intros HN Hdata Hi c.
  pose proof (data_returns_nonempty _ _ _ HN Hdata) as Hne.
  rewrite (groups_of_data file_lines N Hne HN _ Hdata).
  destruct (chunk_arith file_lines N Hne HN) as (HL & Hc & Hn & HNc & Hcn).
  rewrite len_strip_lines in *. fold c.
  set (n := Z.to_nat (Py.ceil_div (Py.len file_lines) (Py.ceil_div (Py.len file_lines) N))).
  assert (Hcpos : 0 < c) by (subst c; lia).
  assert (Hk : i / c < n).
  { apply Nat.Div0.div_lt_upper_bound. subst c n. unfold Py.len in *. nia. }
  rewrite list_lookup_fmap, lookup_seq_lt by done. simpl.
  rewrite lookup_chunk_at by (by apply Nat.mod_upper_bound; lia).
  f_equal. rewrite (Nat.div_mod_eq i c) at 3. lia.
Qed.
End Positions.

Lemma data_record_position_witness :
  groups Sample.two_units !! (4 / 3)%nat ≫= (fun g => g !! (4 mod 3)%nat)
  = Some "wolf".
Proof.
  apply (data_record_position Sample.words 2 Sample.two_units 4);
    [lia|reflexivity|simpl; lia].
Defined.

Section Balance.
Variable file_lines : list string.
Variable N : Z.

(** When the number of lines is a multiple of the count, [data] emits
    exactly that many groups, all of the same size. *)
Theorem data_even_split (q : Z) :
  1 <= N -> 1 <= q -> Py.len file_lines = N * q ->
  exists ts,
    data file_lines N = Return ts /\
    Py.len (groups ts) = N /\
    Forall (fun g => Py.len g = q) (groups ts).
Proof.
  intros HN Hq HL.
  assert (Hne : file_lines <> []).
  { intros ->. unfold Py.len in HL. simpl in HL. nia. }
  pose proof (data_chunks file_lines N Hne HN) as Hdata.
  pose proof (length_group file_lines N Hne HN) as Hlen.
  rewrite (len_strip_lines file_lines) in *.
  assert (Hc : Py.ceil_div (Py.len file_lines) N = q).
  { apply ceil_div_unique; [lia|]. nia. }
  rewrite Hc in *.
  assert (Hn : Py.ceil_div (Py.len file_lines) q = N).
  { apply ceil_div_unique; [lia|]. nia. }
  rewrite Hn in *.
  eexists. split; [exact Hdata|].
  unfold groups. rewrite map_map. simpl. split.
  - unfold Py.len. rewrite length_map, length_seq. lia.
  - apply Forall_forall. intros g Hg.
    apply list_elem_of_fmap in Hg as (k & -> & Hk). apply elem_of_seq in Hk.
    rewrite Hlen by lia. case_decide; [done|]. nia.
Qed.


(** The number of groups is the count asked for exactly when the last of
    that many chunks still has a line to take. *)
Theorem data_group_count_exact (ts : list Task) :
  1 <= N ->
  data file_lines N = Return ts ->
  (Py.len (groups ts) = N
   <-> (N - 1) * Py.ceil_div (Py.len file_lines) N < Py.len file_lines).
Proof.
  intros HN Hdata.
  pose proof (data_returns_nonempty _ _ _ HN Hdata) as Hne.
  rewrite (groups_of_data file_lines N Hne HN _ Hdata).
  destruct (chunk_arith file_lines N Hne HN) as (HL & Hc & Hn & HNc & Hcn).
  pose proof (group_count_le file_lines N Hne HN) as Hle.
  rewrite (len_strip_lines file_lines) in *.
  unfold Py.len at 1. rewrite length_map, length_seq, Z2Nat.id by lia.
  split; [intros Heq; rewrite Heq in Hcn; lia|nia].
Qed.
End Balance.

(** [range(start, stop, step)] with a step that is not zero: its [k]-th
    element is [start + k * step], and its elements are exactly the
    numbers of that form, with [k >= 0], on the near side of [stop]. *)
Theorem range_spec (start stop step : Z) :
  step <> 0 ->
  exists l,
    Py.range start stop step = Return l /\
    (forall (k : nat) i, l !! k = Some i -> i = start + Z.of_nat k * step) /\
    (forall i, i ∈ l <->
       exists k, 0 <= k /\ i = start + k * step /\
                 (if 0 <? step then i < stop else stop < i)).
Proof.
  intros Hstep. unfold Py.range.
  destruct (Z.eqb_spec step 0) as [?|_]; [done|].
  eexists. split; [reflexivity|].
  set (n := if 0 <? step
            then (if start <? stop then (stop - start - 1) / step + 1 else 0)
            else (if stop <? start then (start - stop - 1) / (- step) + 1 else 0)).
  assert (Hn : forall k, 0 <= k ->
             (k < n <-> if 0 <? step then start + k * step < stop
                        else stop < start + k * step)).
  { intros k Hk. subst n.
    destruct (Z.ltb_spec 0 step) as [Hpos|Hneg].
    - destruct (Z.ltb_spec start stop) as [Hlt|Hge]; [|nia].
      pose proof (Z.div_mod (stop - start - 1) step ltac:(lia)).
      pose proof (Z.mod_pos_bound (stop - start - 1) step Hpos). nia.
    - destruct (Z.ltb_spec stop start) as [Hlt|Hge]; [|nia].
      pose proof (Z.div_mod (start - stop - 1) (- step) ltac:(lia)).
      pose proof (Z.mod_pos_bound (start - stop - 1) (- step) ltac:(lia)). nia. }
  split.
  - intros k i Hk. rewrite list_lookup_fmap in Hk.
    destruct (seq 0 (Z.to_nat n) !! k) as [k'|] eqn:Hseq; [|done].
    apply lookup_seq in Hseq as [-> _]. simpl in Hk. by injection Hk as <-.
  - intros i. rewrite list_elem_of_fmap. split.
    + intros (k & -> & Hk). apply elem_of_seq in Hk.
      exists (Z.of_nat k). split; [lia|]. split; [done|].
      pose proof (proj1 (Hn (Z.of_nat k) ltac:(lia)) ltac:(lia)) as Hside.
      by destruct (0 <? step).
    + intros (k & Hk & -> & Hside). exists (Z.to_nat k).
      rewrite Z2Nat.id by done. split; [done|]. apply elem_of_seq.
      assert (k < n) by (apply Hn; [done|by destruct (0 <? step)]). lia.
Qed.

Lemma range_spec_witness :
  exists l,
    Py.range 0 5 3 = Return l /\
    (forall (k : nat) i, l !! k = Some i -> i = 0 + Z.of_nat k * 3) /\
    (forall i, i ∈ l <->
       exists k, 0 <= k /\ i = 0 + k * 3 /\ (if 0 <? 3 then i < 5 else 5 < i)).
Proof. apply (range_spec 0 5 3). lia. Defined.

(** * Further properties of the worker and of the run *)

Section MoreStream.
Local Open Scope nat_scope.
Variables WORDS_PATH HASH_PATH RESULT_PATH args_hash : string.
Variable json_loads : string -> option json.
Variable backend : list step -> batch_result.

Abbreviation worker' := (worker WORDS_PATH HASH_PATH RESULT_PATH args_hash json_loads).
Abbreviation drive' := (drive backend).
Abbreviation four_steps' := (four_steps WORDS_PATH HASH_PATH RESULT_PATH args_hash).
Abbreviation unit_result' :=
  (unit_result WORDS_PATH HASH_PATH RESULT_PATH args_hash json_loads backend).
Abbreviation run_units' :=
  (run_units WORDS_PATH HASH_PATH RESULT_PATH args_hash json_loads backend).
Abbreviation submit' :=
  (submit WORDS_PATH HASH_PATH RESULT_PATH args_hash json_loads backend).
Abbreviation main' :=
  (main WORDS_PATH HASH_PATH RESULT_PATH args_hash json_loads backend).

Lemma batch_payload_four_steps (payload : list string) (output_file : tmp_name) :
  batch_payload (four_steps' payload output_file) = payload.
Proof. unfold batch_payload. cbn. apply app_nil_r. Qed.

Lemma drive_worker_counts tasks : forall w,
  pending_steps w = [] ->
  let wf := (drive' (worker' tasks w)).2 in
  tmp_created wf
  = tmp_created w + length (dispatched (run_units' (tmp_created w) tasks).1) /\
  pending_steps wf = [] /\ done_queue wf = [].
Proof.
  induction tasks as [|t ts IH]; intros [p f c cl dq] Hp; simpl in Hp; subst p.
  - simpl. split; [lia|done].
  - cbn -[drive]. cbn.
    unfold unit_result. fold (four_steps' (task_data t) c).
    destruct (backend (four_steps' (task_data t) c)) as [text|e]; cbn.
    + unfold json_load. cbn. rewrite lookup_insert_eq.
      destruct (json_loads text) as [v|]; cbn.
      * unfold close. cbn. rewrite lookup_insert_eq.
        match goal with
        | |- context [drive' (worker' ts ?w9)] =>
            specialize (IH w9 eq_refl); destruct (drive' (worker' ts w9)) as [[evs fin] wf]
        end.
        cbn in IH. destruct IH as (Hcount & Hpend & Hdone).
        destruct (run_units' (S c) ts) as [evs' fin']. cbn in *.
        split; [lia|done].
      * split; [lia|done].
    + split; [lia|done].
Qed.

(** A worker creates one temporary file for each batch it dispatches, and
    leaves nothing behind in its context: when it has finished or raised,
    no command is pending and no accepted task is waiting to be handed
    over. *)
Theorem one_temporary_file_per_batch (tasks : list Task) :
  tmp_created (submit' tasks).2 = length (dispatched (submit' tasks).1.1) /\
  pending_steps (submit' tasks).2 = [] /\
  done_queue (submit' tasks).2 = [].
Proof.
  rewrite submit_stream.
  apply (drive_worker_counts tasks fresh_world eq_refl).
Qed.

Lemma run_units_results tasks : forall i k t',
  computed (run_units' i tasks).1 !! k = Some t' ->
  exists t text,
    tasks !! k = Some t /\
    backend (four_steps' (task_data t) (i + k)) = Fetched text /\
    json_loads text = Some (task_result t') /\
    t' = accept_result t (task_result t').
Proof.
  induction tasks as [|t ts IH]; intros i k t'; simpl; [done|].
  unfold unit_result.
  destruct (backend (four_steps' (task_data t) i)) as [text|e] eqn:Hb; [|done].
  destruct (json_loads text) as [v|] eqn:Hv; [|done].
  specialize (IH (S i)).
  destruct (run_units' (S i) ts) as [evs fin]. cbn.
  destruct k as [|k]; simpl.
  - intros [= <-]. exists t, text. by rewrite Nat.add_0_r.
  - intros Hk. destruct (IH k t' Hk) as (t0 & text0 & Ht0 & Hb0 & Hv0 & Heq).
    exists t0, text0. by replace (i + S k) with (S i + k) by lia.
Qed.

(** Every task that a worker hands over as computed is one of the tasks it
    was given, at the same position, with its data unchanged, accepted,
    and with the result that [json.loads] decodes from the text fetched
    for the batch of that task. *)
Theorem computed_results_from_provider (tasks : list Task) (k : nat) (t' : Task) :
  computed (submit' tasks).1.1 !! k = Some t' ->
  exists t text,
    tasks !! k = Some t /\
    backend (four_steps' (task_data t) k) = Fetched text /\
    json_loads text = Some (task_result t') /\
    t' = accept_result t (task_result t').
Proof. rewrite submit_stream. apply (run_units_results tasks 0). Qed.




End MoreStream.

Section MoreConsume.
Implicit Types (evs : list exec_event) (ts : list Task) (r : json).

Lemma aggregate_truthy r ts :
  truthy (aggregate r ts) = false <-> truthy r = false /\ Forall falsy ts.
Proof.
  revert r. induction ts as [|t ts IH]; intros r; simpl.
  - split; [by intros ->|by intros [-> _]].
  - rewrite IH. unfold falsy at 2. rewrite Forall_cons.
    destruct (truthy (task_result t)) eqn:Ht; unfold falsy; split.
    + intros [Hr _]. congruence.
    + intros (_ & Hf & _). congruence.
    + by intros [-> Hts].
    + by intros (-> & _ & Hts).
Qed.

Lemma last_main_on evs :
  last (main_on evs Exhausted).1
  = Some (report (aggregate (JString EmptyString) (computed evs))).
Proof. unfold main_on. rewrite consume_eq. simpl. apply last_snoc. Qed.

(** Whatever the Executor does and in whatever order the tasks complete,
    when the stream of computed tasks ends, the last line printed is the
    no-match message exactly when no computed task has a truthy result: a
    result that is null, false, zero or empty never counts as a match. *)
Theorem no_match_iff_all_falsy evs :
  last (main_on evs Exhausted).1 = Some (Print [Lit "No matching words found."])
  <-> Forall falsy (computed evs).
Proof.
  rewrite last_main_on. unfold report.
  destruct (truthy (aggregate (JString EmptyString) (computed evs))) eqn:Hr.
  - split; [done|]. intros Hall.
    assert (truthy (aggregate (JString EmptyString) (computed evs)) = false)
      by (by apply aggregate_truthy).
    congruence.
  - split; [|done]. intros _. by apply aggregate_truthy in Hr as [_ Hall].
Qed.

(** When the truthy results all agree, as they do when one word matches,
    the line that reports the outcome does not depend on the order in
    which the tasks complete. *)
Theorem report_order_independent evs evs' :
  computed evs ≡ₚ computed evs' ->
  (forall t1 t2, t1 ∈ computed evs -> t2 ∈ computed evs ->
     truthy (task_result t1) = true -> truthy (task_result t2) = true ->
     task_result t1 = task_result t2) ->
  last (main_on evs Exhausted).1 = last (main_on evs' Exhausted).1.
Proof.
  intros Hperm Hagree. rewrite !last_main_on. do 2 f_equal.
  destruct (decide (Exists (fun t => truthy (task_result t) = true) (computed evs)))
    as [Hex|Hnone].
  - pose proof Hex as Hex'. rewrite Hperm in Hex'.
    destruct (Exists_last_truthy _ Hex) as (a1 & t1 & b1 & Heq1 & Ht1 & Hb1).
    destruct (Exists_last_truthy _ Hex') as (a2 & t2 & b2 & Heq2 & Ht2 & Hb2).
    rewrite Heq1, Heq2, !aggregate_last by done.
    apply Hagree; [| |done|done].
    + rewrite Heq1. set_solver.
    + rewrite Hperm, Heq2. set_solver.
  - assert (Hall : Forall falsy (computed evs)).
    { apply Forall_forall. intros t Ht. unfold falsy.
      destruct (truthy (task_result t)) eqn:Htr; [|done].
      exfalso. apply Hnone, Exists_exists. eauto. }
    rewrite aggregate_falsy by done. rewrite Hperm in Hall.
    by rewrite aggregate_falsy.
Qed.

(** When the stream of computed tasks ends with an exception, [main] ends
    with it: the lines of the tasks computed before are printed and
    nothing else, neither the word of a match already seen nor the
    no-match message. *)
Theorem no_report_when_stream_raises evs (e : exn) :
  (main_on evs (WorkerRaised e)).2 = Raise e /\
  printed (main_on evs (WorkerRaised e)).1 = map computed_line (computed evs) /\
  dispatches (main_on evs (WorkerRaised e)).1 = dispatched evs.
Proof.
  unfold main_on. rewrite consume_eq. simpl.
  by rewrite printed_observe, dispatches_observe.
Qed.
End MoreConsume.

(** Asking for more workers never gives fewer groups, and never larger
    ones: for the same lines, the chunk size does not grow and the number
    of groups does not shrink when the count grows. *)
Theorem data_group_count_monotone (file_lines : list string) (N N' : Z)
    (ts ts' : list Task) :
  1 <= N -> N <= N' ->
  data file_lines N = Return ts ->
  data file_lines N' = Return ts' ->
  Py.ceil_div (Py.len file_lines) N' <= Py.ceil_div (Py.len file_lines) N /\
  Py.len (groups ts) <= Py.len (groups ts').
Proof.
  intros HN HN' Hdata Hdata'.
  pose proof (data_returns_nonempty _ _ _ HN Hdata) as Hne.
  assert (HN1 : 1 <= N') by lia.
  rewrite (groups_of_data file_lines N Hne HN _ Hdata).
  rewrite (groups_of_data file_lines N' Hne HN1 _ Hdata').
  destruct (chunk_arith file_lines N Hne HN) as (HL & Hc & Hn & HNc & Hcn).
  destruct (chunk_arith file_lines N' Hne HN1) as (_ & Hc' & Hn' & HNc' & Hcn').
  rewrite (len_strip_lines file_lines) in *.
  assert (Hcount : forall (cc : nat) (nn : Z), 0 <= nn ->
            Py.len (map (chunk_at cc (map Py.strip file_lines)) (seq 0 (Z.to_nat nn)))
            = nn).
  { intros cc nn Hnn. unfold Py.len. rewrite length_map, length_seq. lia. }
  rewrite !Hcount by lia. clear Hcount.
  set (L := Py.len file_lines) in *.
  set (c := Py.ceil_div L N) in *. set (c' := Py.ceil_div L N') in *.
  set (n := Py.ceil_div L c) in *. set (n' := Py.ceil_div L c') in *.
  clearbody L c c' n n'.
  assert (Hcc : c' <= c).
  { destruct (Z.le_gt_cases c' c) as [Hle|Hgt]; [exact Hle|]. exfalso.
    assert (N * c <= N' * c) by (apply Z.mul_le_mono_nonneg_r; lia).
    assert (N' * c <= N' * (c' - 1)) by (apply Z.mul_le_mono_nonneg_l; lia).
    lia. }
  split; [exact Hcc|].
  destruct (Z.le_gt_cases n n') as [Hle|Hgt]; [exact Hle|]. exfalso.
  assert (c' * n' <= c' * (n - 1)) by (apply Z.mul_le_mono_nonneg_l; lia).
  assert (c' * (n - 1) <= c * (n - 1)) by (apply Z.mul_le_mono_nonneg_r; lia).
  lia.
Qed.

(** * Sample inputs of the further properties *)

Lemma data_records_trimmed_witness :
  Forall (Forall (fun r => trimmed r /\ Py.strip r = r))
         (groups [new_task ["cat"; "dog"]; new_task [EmptyString]]).
Proof.
  apply (data_records_trimmed ["  cat "; "dog "; " "] 2). reflexivity.
Defined.

Lemma data_idempotent_witness :
  data (concat (groups [new_task ["cat"; "dog"]; new_task [EmptyString]])) 2
  = Return [new_task ["cat"; "dog"]; new_task [EmptyString]].
Proof.
  apply (data_idempotent ["  cat "; "dog "; " "] 2); [lia|reflexivity].
Defined.

Lemma data_even_split_witness :
  exists ts,
    data ["a"; "b"; "c"; "d"; "e"; "f"] 3 = Return ts /\
    Py.len (groups ts) = 3 /\
    Forall (fun g => Py.len g = 2) (groups ts).
Proof.
  apply (data_even_split ["a"; "b"; "c"; "d"; "e"; "f"] 3 2); [lia|lia|reflexivity].
Defined.


Lemma data_group_count_exact_witness :
  Py.len (groups Sample.two_units) = 2
  <-> (2 - 1) * Py.ceil_div (Py.len Sample.words) 2 < Py.len Sample.words.
Proof.
  apply (data_group_count_exact Sample.words 2 Sample.two_units); [lia|reflexivity].
Defined.

Lemma computed_results_from_provider_witness :
  exists t text,
    Sample.three_units !! 2%nat = Some t /\
    Sample.provider ["wolf"] (Sample.batch_of (task_data t) 2) = Fetched text /\
    Sample.loads text = Some (JString "wolf") /\
    accept_result (new_task ["wolf"]) (JString "wolf")
    = accept_result t (JString "wolf").
Proof.
  apply (computed_results_from_provider Sample.WORDS_PATH Sample.HASH_PATH
           Sample.RESULT_PATH Sample.args_hash Sample.loads
           (Sample.provider ["wolf"]) Sample.three_units 2
           (accept_result (new_task ["wolf"]) (JString "wolf"))).
  reflexivity.
Defined.



Lemma report_order_independent_witness :
  last (main_on [Computed (accept_result (new_task ["cat"; "dog"; "bird"]) JNull);
                 Computed (accept_result (new_task ["fish"; "wolf"]) (JString "wolf"))]
                Exhausted).1
  = last (main_on [Computed (accept_result (new_task ["fish"; "wolf"]) (JString "wolf"));
                   Dispatched [];
                   Computed (accept_result (new_task ["cat"; "dog"; "bird"]) JNull)]
                  Exhausted).1.
Proof.
  apply report_order_independent.
  - apply Permutation_swap.
  - intros t1 t2 H1 H2 Ht1 Ht2. cbn in H1, H2.
    rewrite !elem_of_cons, elem_of_nil in H1, H2.
    destruct H1 as [->|[->|[]]], H2 as [->|[->|[]]]; done.
Defined.

Lemma data_group_count_monotone_witness :
  Py.ceil_div (Py.len Sample.words) 3 <= Py.ceil_div (Py.len Sample.words) 2 /\
  Py.len (groups Sample.two_units) <= Py.len (groups Sample.three_units).
Proof.
  apply (data_group_count_monotone Sample.words 2 3 Sample.two_units Sample.three_units);
    [lia|lia|reflexivity|reflexivity].
Defined.
